(** * Ledgerlink: a URL-shortening smart contract (src/ledgerlink.py)

    A shallow embedding of the contract and the properties of its code
    generator, its record store and its entry dispatcher.

    The contract is Python source for the neo-boa compiler.  Integers are
    unbounded ([Z]); [//] and [%] are Python's floor division and modulus,
    which are [Z.div] and [Z.modulo].  Strings and byte arrays are [string]
    (one [ascii] per byte).  The storage of the host is a finite map from
    keys to values, and everything the host can observe of a run (Notify,
    Put, a registered action) is recorded in a trace, in order. *)

From Stdlib Require Import ZArith String Ascii List Bool Lia.
From stdpp Require Import gmap strings.
Import ListNotations.

Local Open Scope string_scope.
Local Open Scope list_scope.
Local Open Scope Z_scope.

(** ** Builtins of the compiler ([boa.code.builtins]) *)

Module Builtins.

(** [concat(a, b)]: the bytes of [a] followed by the bytes of [b]. *)
Definition concat (a b : string) : string := String.append a b.

(** [substr(s, start, count)]: [count] bytes of [s] from index [start]. *)
Definition substr (s : string) (start count : Z) : string :=
  String.substring (Z.to_nat start) (Z.to_nat count) s.

End Builtins.
Import Builtins.

(** ** UTILITIES: [b58encode] *)

Definition alphabet : string :=
  "123456789ABCDEFGHJKLMNPQRSTUVWXYZabcdefghijkmnopqrstuvwxyz".

(** The initial value of [code] in [b58encode], the one-byte string '\x00'. *)
Definition NUL : string := String Ascii.zero EmptyString.

(** The [while] loop of [b58encode].  The loop variables are [i], [code] and
    [current_length]; [fuel] bounds the number of iterations the model may
    run, and [None] says the bound was reached with the loop condition still
    true.  The result carries the final [current_length], which counts the
    iterations performed. *)
Fixpoint b58encode_loop (fuel : nat) (max_length : Z)
    (i : Z) (code : string) (current_length : Z) : option (string * Z) :=
  if negb (i =? 0) && (current_length <? max_length) then
    match fuel with
    | O => None
    | S fuel' =>
        let newi := i / 58 in
        let idx := i mod 58 in
        let c := substr alphabet idx 1 in
        let code' := if String.eqb code NUL then c else concat c code in
        b58encode_loop fuel' max_length newi code' (current_length + 1)
    end
  else Some (code, current_length).

(** [b58encode(i, max_length)] run with a given iteration budget. *)
Definition b58encode_fuel (fuel : nat) (i max_length : Z) : option (string * Z) :=
  b58encode_loop fuel max_length i NUL 0.

(** [b58encode(i, max_length)].  [max_length] iterations always suffice
    (lemma [b58encode_fuel_digits]), so the second branch is never taken. *)
Definition b58encode (i max_length : Z) : string :=
  match b58encode_fuel (Z.to_nat max_length) i max_length with
  | Some (code, _) => code
  | None => NUL
  end.

(** [get_contextkey_for_url] and [get_contextkey_for_sender]. *)
Definition get_contextkey_for_url (code : string) : string :=
  let contextkey := concat code "__url" in
  contextkey.

Definition get_contextkey_for_sender (code : string) : string :=
  let contextkey := concat code "__sender" in
  contextkey.

(** ** The host: execution context, storage and observable effects *)

(** A transaction output, as far as the contract looks at it
    ([GetScriptHash]). *)
Record Output := { ScriptHash : string }.

(** The script container of the invocation, with its [References]. *)
Record Transaction := { References : list Output }.

(** Trigger types are single bytes of the host ([TriggerType]). *)
Definition Verification : Z := 0.
Definition Application : Z := 16.

(** What the host supplies to one invocation. *)
Record Host := {
  Trigger : Z;
  Height : Z;
  ScriptContainer : Transaction;
  Witness : string -> bool
}.

(** What an invocation does that the host can observe, in order. *)
Inductive effect :=
| ENotify (payload : string)
| EPut (key value : string)
| EAction (name : string) (arguments : list string).

(** The persistent store of the contract and the trace of effects so far. *)
Record Ledger := {
  storage : gmap string string;
  trace : list effect
}.

(** The one storage context of the contract ([GetContext]). *)
Inductive StorageContext := CurrentContext.

(** Results of [Main]: a boolean, a string or byte array, or a list. *)
Inductive value :=
| VBool (b : bool)
| VBytes (s : string)
| VList (l : list string).

(** Contract code threads the ledger and may fault (an uncaught Python
    exception aborts the invocation): a state and error monad. *)
Definition Contract (A : Type) : Type := Ledger -> option (A * Ledger).

Definition ret {A} (a : A) : Contract A := fun st => Some (a, st).

Definition bind {A B} (m : Contract A) (k : A -> Contract B) : Contract B :=
  fun st => match m st with
            | Some (a, st') => k a st'
            | None => None
            end.

Definition fault {A} : Contract A := fun _ => None.

Declare Scope contract_scope.
Delimit Scope contract_scope with contract.
Notation "x <- m ;; k" := (bind m (fun x => k))
  (at level 100, m at next level, right associativity) : contract_scope.
Notation "m ;;; k" := (bind m (fun _ => k))
  (at level 100, right associativity) : contract_scope.
Local Open Scope contract_scope.

(** [l[n]]: Python raises IndexError out of range. *)
Definition index {A} (l : list A) (n : nat) : Contract A :=
  match nth_error l n with
  | Some a => ret a
  | None => fault
  end.

(** *** Host calls *)

Definition GetTrigger (host : Host) : Contract Z := ret (Trigger host).
Definition CheckWitness (host : Host) (who : string) : Contract bool :=
  ret (Witness host who).
Definition GetHeight (host : Host) : Contract Z := ret (Height host).
Definition GetScriptContainer (host : Host) : Contract Transaction :=
  ret (ScriptContainer host).
Definition GetScriptHash (output : Output) : string := ScriptHash output.
Definition GetContext : Contract StorageContext := ret CurrentContext.

Definition emit (e : effect) : Contract unit :=
  fun st => Some (tt, {| storage := storage st; trace := trace st ++ [e] |}).

Definition Notify (payload : string) : Contract unit := emit (ENotify payload).

(** [Get] of a key never written is the empty byte array. *)
Definition Get (context : StorageContext) (key : string) : Contract string :=
  fun st => Some (default "" (storage st !! key), st).

Definition Put (context : StorageContext) (key value : string) : Contract unit :=
  fun st => Some (tt, {| storage := <[key := value]> (storage st);
                         trace := trace st ++ [EPut key value] |}).

(** [RegisterAction('urladd', 'code', 'url')]. *)
Definition DispatchNewURLEvent (code url : string) : Contract unit :=
  emit (EAction "urladd" [code; url]).

(** ** TOKEN SETTINGS *)

(** [OWNER]: twenty zero bytes. *)
Definition OWNER : string :=
  Eval cbv in String.concat "" (repeat NUL 20).

Definition SHORTENER_URL : string := "https://ledgr.link".

(** ** CONTRACT METHODS *)

Section Contract.

(** The integer the platform reads a byte array as, where the contract hands
    one to integer arithmetic ([b58encode(sender, 2)], [b58encode(url, 2)]).
    The source does not fix it.  Where the platform gives a value no integer
    reading (plain Python raises TypeError at [i // 58] for a non-empty
    string), the run faults before [Notify] and before any [Put]; such a run
    is not a run of [add_url] below, which covers the runs in which both
    values are read.  What is proved of [add_url] is therefore proved of the
    runs that return. *)
Variable as_integer : string -> Z.

Definition add_url (host : Host) (url : string) : Contract value :=
  current_height <- GetHeight host ;;
  tx <- GetScriptContainer host ;;
  let references := References tx in
  ref <- index references 0 ;;
  let sender := GetScriptHash ref in
  let s1 := b58encode current_height 11 in
  let s2 := b58encode (as_integer sender) 2 in
  let s3 := b58encode (as_integer url) 2 in
  let code_part1 := concat s1 s2 in
  let code := concat code_part1 s3 in
  Notify code ;;;
  context <- GetContext ;;
  let contextkey_for_url := get_contextkey_for_url code in
  let contextkey_for_sender := get_contextkey_for_sender code in
  Put context contextkey_for_url url ;;;
  Put context contextkey_for_sender sender ;;;
  DispatchNewURLEvent code url ;;;
  ret (VBool true).

Definition get_url (code : string) : Contract value :=
  context <- GetContext ;;
  let contextkey_for_url := get_contextkey_for_url code in
  url <- Get context contextkey_for_url ;;
  ret (VBytes url).

Definition get_url_info (code : string) : Contract value :=
  context <- GetContext ;;
  let contextkey_for_url := get_contextkey_for_url code in
  let contextkey_for_sender := get_contextkey_for_sender code in
  url <- Get context contextkey_for_url ;;
  sender <- Get context contextkey_for_sender ;;
  let result := [url; sender] in
  ret (VList result).

Definition Main (host : Host) (operation : string) (args : list string)
    : Contract value :=
  let arg_length_error := "Incorrect number of arguments" in
  trigger <- GetTrigger host ;;
  if trigger =? Verification then
    is_owner <- CheckWitness host OWNER ;;
    if is_owner : bool then ret (VBool true) else ret (VBool false)
  else if trigger =? Application then
    if String.eqb operation "shortenerURL" then
      let url := SHORTENER_URL in
      ret (VBytes url)
    else if String.eqb operation "addURL" then
      if Nat.eqb (List.length args) 1 then
        url <- index args 0 ;;
        result <- add_url host url ;;
        ret result
      else ret (VBytes arg_length_error)
    else if String.eqb operation "getURL" then
      if Nat.eqb (List.length args) 1 then
        code <- index args 0 ;;
        result <- get_url code ;;
        ret result
      else ret (VBytes arg_length_error)
    else if String.eqb operation "getURLInfo" then
      if Nat.eqb (List.length args) 1 then
        code <- index args 0 ;;
        result <- get_url_info code ;;
        ret result
      else ret (VBytes arg_length_error)
    else
      let result := "unknown operation" in
      ret (VBytes result)
  else ret (VBool false).

End Contract.

(** ** One platform reading of byte arrays as integers

    The virtual machine the contract is compiled for reads a byte array as a
    little-endian two's-complement integer.  The theorems below hold for
    every reading; this one is used for the concrete runs. *)

Fixpoint le_unsigned (s : string) : Z :=
  match s with
  | EmptyString => 0
  | String c s' => Z.of_nat (nat_of_ascii c) + 256 * le_unsigned s'
  end.

Definition le_signed (s : string) : Z :=
  let u := le_unsigned s in
  let bits := 8 * Z.of_nat (String.length s) in
  if Z.testbit u (bits - 1) then u - 2 ^ bits else u.

(** ** Concrete runs *)

Definition empty_ledger : Ledger := {| storage := ∅; trace := [] |}.

Definition sample_sender : string :=
  String (ascii_of_nat 1) (String (ascii_of_nat 2) EmptyString).

Definition sample_host : Host :=
  {| Trigger := Application;
     Height := 100;
     ScriptContainer := {| References := [ {| ScriptHash := sample_sender |} ] |};
     Witness := fun _ => false |}.

Definition sample_url : string := "https://example.com".

(** A verification run witnessed by the owner, and a run with a trigger that
    is neither verification nor application. *)
Definition owner_host : Host :=
  {| Trigger := Verification;
     Height := 100;
     ScriptContainer := {| References := [ {| ScriptHash := sample_sender |} ] |};
     Witness := fun who => String.eqb who OWNER |}.

Definition stray_host : Host :=
  {| Trigger := 1;
     Height := 100;
     ScriptContainer := {| References := [ {| ScriptHash := sample_sender |} ] |};
     Witness := fun who => String.eqb who OWNER |}.

(** ** The base-58 digits of an integer

    The digits the loop of [b58encode] consumes, least significant first:
    at most [n] of them, stopping early when the rest of the number is
    zero.  Used to state what [b58encode] computes. *)

Fixpoint b58digits (n : nat) (i : Z) : list Z :=
  match n with
  | O => []
  | S n' => if i =? 0 then [] else (i mod 58) :: b58digits n' (i / 58)
  end.

(** The character of [alphabet] for a digit. *)
Definition digit_char (d : Z) : ascii :=
  match String.get (Z.to_nat d) alphabet with
  | Some c => c
  | None => Ascii.zero
  end.

(** The string for a list of digits given least significant first: the most
    significant digit comes first in the string. *)
Definition code_of_digits (ds : list Z) : string :=
  string_of_list_ascii (rev (map digit_char ds)).

(** What [b58encode] returns for the digits it found: the initial '\x00'
    when there is none. *)
Definition code_or_NUL (ds : list Z) : string :=
  match ds with
  | [] => NUL
  | _ :: _ => code_of_digits ds
  end.

(** The ledger after a run, if it did not fault. *)
Definition ledger_after {A} (r : option (A * Ledger)) : option Ledger :=
  match r with
  | Some (_, st) => Some st
  | None => None
  end.

(** Effects that are writes to the store, and [urladd] events. *)
Definition is_put (e : effect) : bool :=
  match e with
  | EPut _ _ => true
  | _ => false
  end.


(** A second invocation context for the same height and sender as
    [sample_host]: other trigger-independent data differ. *)
Definition other_host : Host :=
  {| Trigger := Application;
     Height := 100;
     ScriptContainer :=
       {| References := [ {| ScriptHash := sample_sender |};
                          {| ScriptHash := "another output" |} ] |};
     Witness := fun _ => true |}.

Definition other_ledger : Ledger :=
  {| storage := {[ "k" := "v" ]}; trace := [ENotify "earlier"] |}.

(** The number a list of base-58 digits stands for, least significant
    digit first. *)
Definition digits_value (ds : list Z) : Z :=
  fold_right (fun d v => d + 58 * v) 0 ds.

(** The ledgers the contract can be in: the empty ledger of a fresh
    deployment, and the ledger any invocation of [Main] that did not fault
    leaves behind, whatever the host supplied and the caller asked for. *)
Inductive reachable (as_integer : string -> Z) : Ledger -> Prop :=
| reach_init : reachable as_integer empty_ledger
| reach_step (st st' : Ledger) (host : Host) (operation : string)
    (args : list string) (r : value) :
    reachable as_integer st ->
    Main as_integer host operation args st = Some (r, st') ->
    reachable as_integer st'.

(** The result of a run without the ledger. *)
Definition result_of {A} (r : option (A * Ledger)) : option A :=
  match r with
  | Some (a, _) => Some a
  | None => None
  end.

(** A second url whose integer agrees with that of "a" in its two least
    significant base-58 digits: 3461 = 97 + 58 * 58. *)
Definition colliding_url : string :=
  String (ascii_of_nat 133) (String (ascii_of_nat 13) EmptyString).

(** The ledger after the sample [addURL] on the empty ledger. *)
Definition sample_ledger : Ledger :=
  match Main le_signed sample_host "addURL" [sample_url] empty_ledger with
  | Some (_, st) => st
  | None => empty_ledger
  end.

(** Invocations whose sender and url are both empty, so that [b58encode]
    leaves its loop at once on them ([while i] is false on an empty value):
    two contexts with the same height and sender that differ in everything
    else. *)
Definition bare_host : Host :=
  {| Trigger := Application;
     Height := 100;
     ScriptContainer := {| References := [ {| ScriptHash := "" |} ] |};
     Witness := fun _ => false |}.

Definition bare_other_host : Host :=
  {| Trigger := Verification;
     Height := 100;
     ScriptContainer :=
       {| References := [ {| ScriptHash := "" |};
                          {| ScriptHash := "another output" |} ] |};
     Witness := fun _ => true |}.

(** A host without references. *)
Definition unfunded_host : Host :=
  {| Trigger := Application;
     Height := 100;
     ScriptContainer := {| References := [] |};
     Witness := fun _ => false |}.

(** * Properties *)

Example b58encode_100 : b58encode 100 11 = "2j".
Proof. reflexivity. Qed.

Example b58encode_zero : b58encode 0 11 = NUL.
Proof. reflexivity. Qed.

Example b58encode_truncates : b58encode (58 * 58) 2 = "11".
Proof. reflexivity. Qed.

Example b58encode_negative : b58encode (-1) 3 = "zzz".
Proof. reflexivity. Qed.


(** ** Strings *)

Lemma append_nil (b : string) : String.append EmptyString b = b.
Proof. reflexivity. Qed.

Lemma append_cons (x : ascii) (a b : string) :
  String.append (String x a) b = String x (String.append a b).
Proof. reflexivity. Qed.

Lemma append_assoc (a b c : string) :
  String.append (String.append a b) c = String.append a (String.append b c).
Proof.
  induction a as [|x a IH]; [reflexivity|].
  rewrite !append_cons. now rewrite IH.
Qed.

Lemma string_of_list_ascii_app (l1 l2 : list ascii) :
  string_of_list_ascii (l1 ++ l2)
  = String.append (string_of_list_ascii l1) (string_of_list_ascii l2).
Proof.
  induction l1 as [|x l1 IH]; simpl; [reflexivity|].
  rewrite append_cons. now rewrite IH.
Qed.

Lemma length_string_of_list_ascii (l : list ascii) :
  String.length (string_of_list_ascii l) = List.length l.
Proof. induction l as [|x l IH]; simpl; [reflexivity | now rewrite IH]. Qed.

Lemma get_string_of_list_ascii (l : list ascii) (n : nat) :
  String.get n (string_of_list_ascii l) = nth_error l n.
Proof.
  revert n. induction l as [|x l IH]; intros [|n]; simpl; try reflexivity.
  apply IH.
Qed.

(** ** The alphabet *)

Lemma below_58 (d : Z) : 0 <= d < 58 -> In (Z.to_nat d) (seq 0 58).
Proof. intros H. apply in_seq. lia. Qed.

Lemma substr_alphabet (d : Z) :
  0 <= d < 58 -> substr alphabet d 1 = String (digit_char d) EmptyString.
Proof.
  intros H.
  assert (Hall : forallb (fun k => String.eqb (String.substring k 1 alphabet)
                    (String (digit_char (Z.of_nat k)) EmptyString)) (seq 0 58) = true)
    by (vm_compute; reflexivity).
  rewrite forallb_forall in Hall.
  specialize (Hall _ (below_58 d H)).
  apply String.eqb_eq in Hall.
  rewrite Z2Nat.id in Hall by lia.
  exact Hall.
Qed.

Lemma get_alphabet (d : Z) :
  0 <= d < 58 -> String.get (Z.to_nat d) alphabet = Some (digit_char d).
Proof.
  intros H.
  assert (Hall : forallb (fun k => match String.get k alphabet with
                                   | Some c => Ascii.eqb c (digit_char (Z.of_nat k))
                                   | None => false
                                   end) (seq 0 58) = true)
    by (vm_compute; reflexivity).
  rewrite forallb_forall in Hall.
  specialize (Hall _ (below_58 d H)).
  rewrite Z2Nat.id in Hall by lia.
  destruct (String.get (Z.to_nat d) alphabet) as [c|]; [|discriminate].
  apply Ascii.eqb_eq in Hall. now subst.
Qed.

Lemma digit_char_alphabet (d : Z) :
  0 <= d < 58 -> In (digit_char d) (list_ascii_of_string alphabet).
Proof.
  intros H.
  assert (Hall : forallb (fun k => existsb (Ascii.eqb (digit_char (Z.of_nat k)))
                                     (list_ascii_of_string alphabet)) (seq 0 58) = true)
    by (vm_compute; reflexivity).
  rewrite forallb_forall in Hall.
  specialize (Hall _ (below_58 d H)).
  rewrite Z2Nat.id in Hall by lia.
  apply existsb_exists in Hall as (c & Hin & Heq).
  apply Ascii.eqb_eq in Heq. now subst.
Qed.

Lemma digit_char_not_zero (d : Z) : 0 <= d < 58 -> digit_char d <> Ascii.zero.
Proof.
  intros H Hz.
  assert (Hall : forallb (fun k => negb (Ascii.eqb (digit_char (Z.of_nat k)) Ascii.zero))
                   (seq 0 58) = true)
    by (vm_compute; reflexivity).
  rewrite forallb_forall in Hall.
  specialize (Hall _ (below_58 d H)).
  rewrite Z2Nat.id in Hall by lia.
  rewrite Hz in Hall. discriminate.
Qed.

(** ** The loop of [b58encode] *)

(** More fuel does not change a result. *)
Lemma b58encode_loop_more (extra fuel : nat) (max_length i : Z) (code : string)
    (current_length : Z) (r : string * Z) :
  b58encode_loop fuel max_length i code current_length = Some r ->
  b58encode_loop (fuel + extra) max_length i code current_length = Some r.
Proof.
  revert i code current_length.
  induction fuel as [|fuel IH]; intros i code cur; simpl.
  - destruct (negb (i =? 0) && (cur <? max_length)) eqn:G; [discriminate|].
    intros H. destruct extra; simpl; now rewrite G.
  - destruct (negb (i =? 0) && (cur <? max_length)) eqn:G; [|easy].
    apply IH.
Qed.

(** The loop from a state whose [code] is no longer the initial '\x00':
    it prepends the digits of [i], and counts them. *)
Lemma b58encode_loop_digits (fuel : nat) (max_length : Z) :
  forall (i : Z) (code : string) (current_length : Z),
    code <> NUL ->
    fuel = Z.to_nat (max_length - current_length) ->
    let ds := b58digits fuel i in
    b58encode_loop fuel max_length i code current_length
    = Some (String.append (code_of_digits ds) code,
            current_length + Z.of_nat (List.length ds)).
Proof.
  induction fuel as [|fuel IH]; intros i code cur Hcode Hfuel; simpl.
  - replace (cur <? max_length) with false by (symmetry; apply Z.ltb_ge; lia).
    rewrite andb_false_r. simpl. now rewrite Z.add_0_r.
  - replace (cur <? max_length) with true by (symmetry; apply Z.ltb_lt; lia).
    rewrite andb_true_r.
    destruct (i =? 0) eqn:Hi; simpl.
    + now rewrite Z.add_0_r.
    + apply String.eqb_neq in Hcode. rewrite Hcode.
      assert (Hd : 0 <= i mod 58 < 58) by (apply Z.mod_pos_bound; lia).
      rewrite substr_alphabet by exact Hd.
      rewrite IH.
      * f_equal. f_equal.
        -- unfold code_of_digits, concat. simpl.
           rewrite string_of_list_ascii_app. simpl.
           rewrite append_assoc. now rewrite append_cons, append_nil.
        -- simpl. lia.
      * unfold concat, NUL. rewrite append_cons. intros E. inversion E.
        now apply (digit_char_not_zero (i mod 58)).
      * lia.
Qed.

(** [b58encode] run with [max_length] iterations of fuel: the code is '\x00'
    when there is no digit, and the digits otherwise; the iteration count is
    the number of digits. *)
Lemma b58encode_fuel_digits (i max_length : Z) :
  b58encode_fuel (Z.to_nat max_length) i max_length
  = Some (code_or_NUL (b58digits (Z.to_nat max_length) i),
          Z.of_nat (List.length (b58digits (Z.to_nat max_length) i))).
Proof.
  unfold b58encode_fuel.
  destruct (Z.to_nat max_length) as [|fuel] eqn:Hfuel; simpl.
  - replace (0 <? max_length) with false by (symmetry; apply Z.ltb_ge; lia).
    now rewrite andb_false_r.
  - replace (0 <? max_length) with true by (symmetry; apply Z.ltb_lt; lia).
    rewrite andb_true_r.
    destruct (i =? 0) eqn:Hi; simpl; [reflexivity|].
    assert (Hd : 0 <= i mod 58 < 58) by (apply Z.mod_pos_bound; lia).
    rewrite substr_alphabet by exact Hd.
    rewrite b58encode_loop_digits.
    + f_equal. f_equal; [|lia].
      unfold code_of_digits. simpl. now rewrite string_of_list_ascii_app.
    + unfold NUL. intros E. inversion E.
      now apply (digit_char_not_zero (i mod 58)).
    + lia.
Qed.

Lemma b58encode_digits (i max_length : Z) :
  b58encode i max_length = code_or_NUL (b58digits (Z.to_nat max_length) i).
Proof. unfold b58encode. now rewrite b58encode_fuel_digits. Qed.

(** ** The digits *)

Lemma length_b58digits (n : nat) (i : Z) : (List.length (b58digits n i) <= n)%nat.
Proof.
  revert i. induction n as [|n IH]; intros i; simpl; [lia|].
  destruct (i =? 0); simpl; [lia|]. specialize (IH (i / 58)). lia.
Qed.

Lemma b58digits_range (n : nat) (i d : Z) : In d (b58digits n i) -> 0 <= d < 58.
Proof.
  revert i. induction n as [|n IH]; intros i; simpl; [tauto|].
  destruct (i =? 0); simpl; [tauto|].
  intros [<- | H]; [apply Z.mod_pos_bound; lia | exact (IH _ H)].
Qed.

Lemma div_58_pow (i : Z) (k : nat) :
  i / 58 / 58 ^ Z.of_nat k = i / 58 ^ Z.of_nat (S k).
Proof.
  rewrite Nat2Z.inj_succ, Z.pow_succ_r by lia.
  rewrite Z.div_div; [reflexivity | lia | ].
  apply Z.pow_pos_nonneg; lia.
Qed.

(** The [k]-th digit is digit [k] of [i] in base 58. *)
Lemma b58digits_nth (n : nat) (i : Z) (k : nat) :
  (k < List.length (b58digits n i))%nat ->
  nth_error (b58digits n i) k = Some ((i / 58 ^ Z.of_nat k) mod 58).
Proof.
  revert i k. induction n as [|n IH]; intros i k; simpl; [lia|].
  destruct (i =? 0); simpl; [lia|].
  destruct k as [|k]; simpl.
  - intros _. now rewrite Z.div_1_r.
  - intros H. rewrite IH by lia. now rewrite div_58_pow.
Qed.

(** Every digit position emitted had a non-zero rest, and the loop stopped
    either at [n] digits or at a zero rest. *)
Lemma b58digits_rest (n : nat) (i : Z) (k : nat) :
  (k < List.length (b58digits n i))%nat -> i / 58 ^ Z.of_nat k <> 0.
Proof.
  revert i k. induction n as [|n IH]; intros i k; simpl; [lia|].
  destruct (i =? 0) eqn:Hi; simpl; [lia|].
  apply Z.eqb_neq in Hi.
  destruct k as [|k]; simpl.
  - intros _. now rewrite Z.div_1_r.
  - intros H. rewrite <- div_58_pow. apply IH. lia.
Qed.

Lemma b58digits_stop (n : nat) (i : Z) :
  List.length (b58digits n i) = n
  \/ i / 58 ^ Z.of_nat (List.length (b58digits n i)) = 0.
Proof.
  revert i. induction n as [|n IH]; intros i; simpl; [now left|].
  destruct (i =? 0) eqn:Hi; simpl.
  - right. apply Z.eqb_eq in Hi. subst. reflexivity.
  - destruct (IH (i / 58)) as [H|H]; [left; congruence|right].
    now rewrite <- div_58_pow.
Qed.

Lemma b58digits_nil (n : nat) (i : Z) :
  b58digits n i = [] <-> n = O \/ i = 0.
Proof.
  destruct n as [|n]; simpl; [intuition|].
  destruct (i =? 0) eqn:Hi.
  - apply Z.eqb_eq in Hi. intuition.
  - apply Z.eqb_neq in Hi. split; [discriminate|]. intros [H|H]; [discriminate|contradiction].
Qed.

Lemma length_code_of_digits (ds : list Z) :
  String.length (code_of_digits ds) = List.length ds.
Proof.
  unfold code_of_digits.
  now rewrite length_string_of_list_ascii, length_rev, length_map.
Qed.

(** Position [len - 1 - k] of the string holds digit [k]. *)
Lemma get_code_of_digits (ds : list Z) (k : nat) (d : Z) :
  nth_error ds k = Some d ->
  String.get (List.length ds - 1 - k) (code_of_digits ds) = Some (digit_char d).
Proof.
  intros H.
  assert (Hk : (k < List.length ds)%nat) by (apply nth_error_Some; congruence).
  unfold code_of_digits.
  rewrite get_string_of_list_ascii, nth_error_rev, length_map.
  replace (Nat.ltb (List.length ds - 1 - k) (List.length ds)) with true
    by (symmetry; apply Nat.ltb_lt; lia).
  replace (List.length ds - S (List.length ds - 1 - k))%nat with k by lia.
  now rewrite nth_error_map, H.
Qed.

(** C3: for a non-negative [i], [b58encode i n] is the one byte '\x00' when
    [i = 0] or [n <= 0]; otherwise it has between 1 and [n] characters, all
    of the alphabet, its character at distance [k] from the end is the
    alphabet character of digit [k] of [i] in base 58 (so the string holds
    the least significant digits, most significant first), and it stops at
    [n] digits or when [i] has no more digits. *)
Theorem b58encode_bounded (i n : Z) :
  0 <= i ->
  ((i = 0 \/ n <= 0) -> b58encode i n = NUL) /\
  (0 < i -> 0 < n ->
   let s := b58encode i n in
   let len := Z.of_nat (String.length s) in
   1 <= len <= n /\
   (forall c, In c (list_ascii_of_string s) -> In c (list_ascii_of_string alphabet)) /\
   (forall k, 0 <= k < len ->
      String.get (Z.to_nat (len - 1 - k)) s
      = String.get (Z.to_nat ((i / 58 ^ k) mod 58)) alphabet) /\
   (len = n \/ i < 58 ^ len) /\
   58 ^ (len - 1) <= i).
Proof.
  intros Hi. rewrite b58encode_digits. split.
  - intros H.
    assert (E : b58digits (Z.to_nat n) i = []) by (apply b58digits_nil; lia).
    now rewrite E.
  - intros Hpos Hn. cbv zeta.
    set (ds := b58digits (Z.to_nat n) i).
    assert (Hne : ds <> []) by (unfold ds; rewrite b58digits_nil; lia).
    assert (E : code_or_NUL ds = code_of_digits ds) by (now destruct ds).
    rewrite E, length_code_of_digits.
    assert (Hlen : (1 <= List.length ds <= Z.to_nat n)%nat).
    { split; [destruct ds; [contradiction | simpl; lia] | apply length_b58digits]. }
    split; [lia|]. split; [|split; [|split]].
    + intros c Hc. unfold code_of_digits in Hc.
      rewrite list_ascii_of_string_of_list_ascii in Hc.
      apply in_rev, in_map_iff in Hc as (d & <- & Hd).
      apply digit_char_alphabet. exact (b58digits_range _ _ _ Hd).
    + intros k Hk.
      assert (Hnth := b58digits_nth (Z.to_nat n) i (Z.to_nat k)).
      fold ds in Hnth. rewrite Z2Nat.id in Hnth by lia.
      specialize (Hnth ltac:(lia)).
      replace (Z.to_nat (Z.of_nat (List.length ds) - 1 - k))
        with (List.length ds - 1 - Z.to_nat k)%nat by lia.
      rewrite (get_code_of_digits _ _ _ Hnth).
      symmetry. apply get_alphabet. apply Z.mod_pos_bound. lia.
    + destruct (b58digits_stop (Z.to_nat n) i) as [H|H]; fold ds in H.
      * left. lia.
      * right. apply Z.div_small_iff in H; [|apply Z.pow_nonzero; lia].
        assert (0 < 58 ^ Z.of_nat (List.length ds)) by (apply Z.pow_pos_nonneg; lia).
        lia.
    + assert (Hrest := b58digits_rest (Z.to_nat n) i (List.length ds - 1)).
      fold ds in Hrest. specialize (Hrest ltac:(lia)).
      replace (Z.of_nat (List.length ds - 1)) with (Z.of_nat (List.length ds) - 1)
        in Hrest by lia.
      assert (Hp : 0 < 58 ^ (Z.of_nat (List.length ds) - 1))
        by (apply Z.pow_pos_nonneg; lia).
      destruct (Z.lt_ge_cases i (58 ^ (Z.of_nat (List.length ds) - 1))) as [Hlt|Hge];
        [|exact Hge].
      exfalso. apply Hrest. apply Z.div_small. lia.
Qed.

(** Runs of [b58encode_bounded]: 100 has the two digits 1 and 42, and zero
    has none. *)
Lemma b58encode_bounded_witness :
  (0 <= 100 /\
   let s := b58encode 100 11 in
   let len := Z.of_nat (String.length s) in
   1 <= len <= 11 /\ (len = 11 \/ 100 < 58 ^ len) /\ 58 ^ (len - 1) <= 100)
  /\ b58encode 0 11 = NUL
  /\ b58encode 100 0 = NUL.
Proof.
  split; [split; [lia|] | split].
  - destruct (b58encode_bounded 100 11 ltac:(lia)) as [_ H].
    destruct (H ltac:(lia) ltac:(lia)) as (H1 & _ & _ & H4 & H5).
    exact (conj H1 (conj H4 H5)).
  - apply (b58encode_bounded 0 11); [lia | now left].
  - apply (b58encode_bounded 100 0); [lia | right; lia].
Defined.

(** C10: [b58encode] terminates for every integer [i] (negative ones too) and
    every [max_length]: with any iteration budget of at least [max_length]
    the loop ends, after [k] iterations with [0 <= k <= max(0, max_length)],
    and its result is [b58encode i max_length]. *)
Theorem b58encode_terminates (i max_length : Z) (extra : nat) :
  exists code k,
    b58encode_fuel (Z.to_nat max_length + extra) i max_length = Some (code, k)
    /\ 0 <= k <= Z.max 0 max_length
    /\ b58encode i max_length = code.
Proof.
  exists (b58encode i max_length),
         (Z.of_nat (List.length (b58digits (Z.to_nat max_length) i))).
  split; [|split; [|reflexivity]].
  - apply b58encode_loop_more.
    fold (b58encode_fuel (Z.to_nat max_length) i max_length).
    now rewrite b58encode_fuel_digits, b58encode_digits.
  - pose proof (length_b58digits (Z.to_nat max_length) i). lia.
Qed.

Example b58encode_fuel_negative :
  b58encode_fuel 3 (-1) 3 = Some ("zzz", 3) /\ b58encode_fuel 2 (-1) 3 = None.
Proof. split; reflexivity. Qed.

(** ** The record store *)

Lemma contextkeys_differ (code : string) :
  get_contextkey_for_url code <> get_contextkey_for_sender code.
Proof.
  unfold get_contextkey_for_url, get_contextkey_for_sender, concat.
  intros E. apply String.app_inj in E. discriminate.
Qed.

Section Runs.

Variable as_integer : string -> Z.

(** A run of [add_url] on a transaction with a first reference. *)
Lemma add_url_run (host : Host) (url : string) (st : Ledger)
    (ref : Output) (refs : list Output) :
  References (ScriptContainer host) = ref :: refs ->
  let sender := ScriptHash ref in
  let code := concat (concat (b58encode (Height host) 11)
                             (b58encode (as_integer sender) 2))
                     (b58encode (as_integer url) 2) in
  add_url as_integer host url st
  = Some (VBool true,
          {| storage := <[get_contextkey_for_sender code := sender]>
                          (<[get_contextkey_for_url code := url]> (storage st));
             trace := trace st ++ [ENotify code;
                                   EPut (get_contextkey_for_url code) url;
                                   EPut (get_contextkey_for_sender code) sender;
                                   EAction "urladd" [code; url]] |}).
Proof.
  intros Href. cbv zeta.
  unfold add_url, bind, GetHeight, GetScriptContainer, index, ret, Notify,
    GetContext, Put, DispatchNewURLEvent, emit, GetScriptHash.
  rewrite Href. simpl.
  rewrite <- !app_assoc. reflexivity.
Qed.

(** Without a reference, [references[0]] raises and nothing is done. *)
Lemma add_url_fault (host : Host) (url : string) (st : Ledger) :
  References (ScriptContainer host) = [] ->
  add_url as_integer host url st = None.
Proof.
  intros Href.
  unfold add_url, bind, GetHeight, GetScriptContainer, index, ret.
  now rewrite Href.
Qed.

Lemma get_url_run (code : string) (st : Ledger) :
  get_url code st
  = Some (VBytes (default "" (storage st !! get_contextkey_for_url code)), st).
Proof. reflexivity. Qed.

Lemma get_url_info_run (code : string) (st : Ledger) :
  get_url_info code st
  = Some (VList [default "" (storage st !! get_contextkey_for_url code);
                 default "" (storage st !! get_contextkey_for_sender code)], st).
Proof. reflexivity. Qed.

End Runs.

(** ** The dispatcher *)

Section Dispatch.

Variable as_integer : string -> Z.

Lemma Main_verification (host : Host) (operation : string) (args : list string)
    (st : Ledger) :
  Trigger host = Verification ->
  Main as_integer host operation args st = Some (VBool (Witness host OWNER), st).
Proof.
  intros Ht. unfold Main, bind, GetTrigger, CheckWitness, ret. rewrite Ht. simpl.
  now destruct (Witness host OWNER).
Qed.

Lemma Main_no_mode (host : Host) (operation : string) (args : list string)
    (st : Ledger) :
  Trigger host <> Verification -> Trigger host <> Application ->
  Main as_integer host operation args st = Some (VBool false, st).
Proof.
  intros Hv Ha. unfold Main, bind, GetTrigger, ret.
  apply Z.eqb_neq in Hv, Ha. now rewrite Hv, Ha.
Qed.

(** In application mode [Main] is the chain of comparisons on [operation]. *)
Lemma Main_application (host : Host) (operation : string) (args : list string)
    (st : Ledger) :
  Trigger host = Application ->
  Main as_integer host operation args st
  = if String.eqb operation "shortenerURL" then Some (VBytes SHORTENER_URL, st)
    else if String.eqb operation "addURL" then
      match args with
      | [url] => add_url as_integer host url st
      | _ => Some (VBytes "Incorrect number of arguments", st)
      end
    else if String.eqb operation "getURL" then
      match args with
      | [code] => get_url code st
      | _ => Some (VBytes "Incorrect number of arguments", st)
      end
    else if String.eqb operation "getURLInfo" then
      match args with
      | [code] => get_url_info code st
      | _ => Some (VBytes "Incorrect number of arguments", st)
      end
    else Some (VBytes "unknown operation", st).
Proof.
  intros Ht. unfold Main, bind at 1, GetTrigger, ret at 1. rewrite Ht.
  change (Application =? Verification) with false.
  change (Application =? Application) with true. cbv iota.
  destruct (String.eqb operation "shortenerURL"); [reflexivity|].
  destruct (String.eqb operation "addURL").
  { destruct args as [|url [|? ?]]; try reflexivity.
    simpl. unfold bind, index, ret. simpl.
    now destruct (add_url as_integer host url st) as [[? ?]|]. }
  destruct (String.eqb operation "getURL").
  { destruct args as [|code [|? ?]]; reflexivity. }
  destruct (String.eqb operation "getURLInfo").
  { destruct args as [|code [|? ?]]; reflexivity. }
  reflexivity.
Qed.

End Dispatch.

(** A successful [add_url] ran on a transaction with a first reference. *)
Lemma add_url_inv (as_integer : string -> Z) (host : Host) (url : string)
    (st st' : Ledger) (r : value) :
  add_url as_integer host url st = Some (r, st') ->
  exists ref refs, References (ScriptContainer host) = ref :: refs.
Proof.
  intros H. destruct (References (ScriptContainer host)) as [|ref refs] eqn:Href.
  - now rewrite add_url_fault in H.
  - now exists ref, refs.
Qed.

(** * The claims *)

(** ** C1 *)

(** C1, as stated, fails: with an empty url and an empty sender at height
    100, [addURL] generates the code "2j" followed by two '\x00' bytes (it is
    notified and used for the keys) and returns [True], not the code. *)
Lemma addURL_returns_true_not_code :
  let code := String.append "2j" (String.append NUL NUL) in
  exists st',
    Main le_signed bare_host "addURL" [""] empty_ledger = Some (VBool true, st')
    /\ trace st' = [ENotify code;
                    EPut (String.append code "__url") "";
                    EPut (String.append code "__sender") "";
                    EAction "urladd" [code; ""]]
    /\ ~ (exists st'', Main le_signed bare_host "addURL" [""] empty_ledger
                       = Some (VBytes code, st'')).
Proof.
  cbv zeta. eexists. split; [vm_compute; reflexivity|]. split; [reflexivity|].
  intros [st'' H]. vm_compute in H. discriminate H.
Qed.

(** C1, amended: in application mode, whenever [addURL] with exactly one
    argument returns, it returns [True]; the generated code is not returned
    but handed to [Notify] and carried by the [urladd] event. *)
Theorem addURL_returns_true (as_integer : string -> Z) (host : Host)
    (url : string) (st st' : Ledger) (r : value) :
  Trigger host = Application ->
  Main as_integer host "addURL" [url] st = Some (r, st') ->
  r = VBool true
  /\ exists code rest,
       trace st' = trace st ++ ENotify code :: rest
       /\ In (EAction "urladd" [code; url]) rest.
Proof.
  intros Ht H.
  rewrite Main_application in H by exact Ht. simpl in H.
  destruct (add_url_inv _ _ _ _ _ _ H) as (ref & refs & Href).
  rewrite (add_url_run as_integer host url st ref refs Href) in H.
  injection H as <- <-.
  split; [reflexivity|].
  eexists _, _. split; [reflexivity|]. simpl. auto.
Qed.

Lemma addURL_returns_true_witness :
  exists st',
    Main le_signed bare_host "addURL" [""] empty_ledger = Some (VBool true, st')
    /\ VBool true = VBool true
    /\ exists code rest,
         trace st' = trace empty_ledger ++ ENotify code :: rest
         /\ In (EAction "urladd" [code; ""]) rest.
Proof.
  eexists.
  assert (H : Main le_signed bare_host "addURL" [""] empty_ledger
              = Some (VBool true, _)) by (vm_compute; reflexivity).
  split; [exact H|].
  exact (addURL_returns_true le_signed bare_host "" empty_ledger _ _ eq_refl H).
Defined.

(** ** C4 *)

(** C4: the code a successful [add_url] produces (the one it notifies, derives
    both keys from and dispatches) is segment A followed by segment B
    followed by segment C, nothing in between: A is [b58encode] of the height
    with 11, B of the sender with 2, C of the url with 2. *)
Theorem add_url_code_is_concatenation (as_integer : string -> Z) (host : Host)
    (url : string) (st st' : Ledger) (r : value) :
  add_url as_integer host url st = Some (r, st') ->
  exists ref,
    nth_error (References (ScriptContainer host)) 0 = Some ref
    /\ let A := b58encode (Height host) 11 in
       let B := b58encode (as_integer (ScriptHash ref)) 2 in
       let C := b58encode (as_integer url) 2 in
       let code := String.append (String.append A B) C in
       trace st' = trace st ++ [ENotify code;
                                EPut (String.append code "__url") url;
                                EPut (String.append code "__sender") (ScriptHash ref);
                                EAction "urladd" [code; url]].
Proof.
  intros H. destruct (add_url_inv _ _ _ _ _ _ H) as (ref & refs & Href).
  rewrite (add_url_run as_integer host url st ref refs Href) in H.
  injection H as _ <-.
  exists ref. rewrite Href. split; reflexivity.
Qed.

Lemma add_url_code_is_concatenation_witness :
  exists st',
    add_url le_signed sample_host sample_url empty_ledger = Some (VBool true, st')
    /\ exists ref,
      nth_error (References (ScriptContainer sample_host)) 0 = Some ref
      /\ trace st' = trace empty_ledger
           ++ [ENotify (String.append (String.append (b58encode 100 11)
                           (b58encode (le_signed (ScriptHash ref)) 2))
                           (b58encode (le_signed sample_url) 2));
               EPut (String.append (String.append (String.append (b58encode 100 11)
                           (b58encode (le_signed (ScriptHash ref)) 2))
                           (b58encode (le_signed sample_url) 2)) "__url") sample_url;
               EPut (String.append (String.append (String.append (b58encode 100 11)
                           (b58encode (le_signed (ScriptHash ref)) 2))
                           (b58encode (le_signed sample_url) 2)) "__sender")
                    (ScriptHash ref);
               EAction "urladd"
                 [String.append (String.append (b58encode 100 11)
                           (b58encode (le_signed (ScriptHash ref)) 2))
                           (b58encode (le_signed sample_url) 2); sample_url]].
Proof.
  eexists. split; [vm_compute; reflexivity|].
  apply (add_url_code_is_concatenation le_signed sample_host sample_url
           empty_ledger _ (VBool true)).
  vm_compute; reflexivity.
Defined.

(** ** C2 *)

(** C2, as stated, fails: the value the sample [add_url] returns is not a
    code under which the url can be read back; it is the boolean [True]. *)
Lemma add_url_sample_return_is_no_code :
  ~ (exists code st',
       add_url le_signed sample_host sample_url empty_ledger
       = Some (VBytes code, st')
       /\ get_url code st' = Some (VBytes sample_url, st')).
Proof.
  intros (code & st' & H & _). vm_compute in H. discriminate H.
Qed.

(** C2, amended: after a successful [add_url] (which returns [True]) has
    generated [code], the value it notifies, [get_url code] returns exactly
    the url and [get_url_info code] returns the pair of the url and the
    sender, the script hash of the first reference of the transaction of
    that call. *)
Theorem add_then_get (as_integer : string -> Z) (host : Host) (url : string)
    (st st' : Ledger) (r : value) :
  add_url as_integer host url st = Some (r, st') ->
  exists code ref rest,
    r = VBool true
    /\ nth_error (References (ScriptContainer host)) 0 = Some ref
    /\ trace st' = trace st ++ ENotify code :: rest
    /\ get_url code st' = Some (VBytes url, st')
    /\ get_url_info code st' = Some (VList [url; ScriptHash ref], st').
Proof.
  intros H. destruct (add_url_inv _ _ _ _ _ _ H) as (ref & refs & Href).
  rewrite (add_url_run as_integer host url st ref refs Href) in H.
  injection H as <- <-.
  eexists _, ref, _. rewrite Href.
  split; [reflexivity|]. split; [reflexivity|]. split; [reflexivity|].
  rewrite get_url_run, get_url_info_run. cbn [storage].
  rewrite lookup_insert_eq.
  rewrite lookup_insert_ne by (apply not_eq_sym, contextkeys_differ).
  rewrite lookup_insert_eq. split; reflexivity.
Qed.

Lemma add_then_get_witness :
  exists st' code ref rest,
    add_url le_signed sample_host sample_url empty_ledger = Some (VBool true, st')
    /\ VBool true = VBool true
    /\ nth_error (References (ScriptContainer sample_host)) 0 = Some ref
    /\ trace st' = trace empty_ledger ++ ENotify code :: rest
    /\ get_url code st' = Some (VBytes sample_url, st')
    /\ get_url_info code st' = Some (VList [sample_url; ScriptHash ref], st').
Proof.
  eexists.
  assert (H : add_url le_signed sample_host sample_url empty_ledger = Some (VBool true, _))
    by (vm_compute; reflexivity).
  destruct (add_then_get _ _ _ _ _ _ H) as (code & ref & rest & P).
  exists code, ref, rest. split; [exact H | exact P].
Defined.

(** ** C5 *)

(** C5: in verification mode [Main] returns [True] exactly when the owner
    witnessed the invocation, whatever the operation and the arguments are,
    and does nothing to the ledger (no operation is run); with a trigger that
    is neither verification nor application it returns [False]. *)
Theorem verification_gate (as_integer : string -> Z) (host : Host)
    (operation : string) (args : list string) (st : Ledger) :
  (Trigger host = Verification ->
     Main as_integer host operation args st = Some (VBool (Witness host OWNER), st)
     /\ (Main as_integer host operation args st = Some (VBool true, st)
         <-> Witness host OWNER = true))
  /\ (Trigger host <> Verification -> Trigger host <> Application ->
      Main as_integer host operation args st = Some (VBool false, st)).
Proof.
  split.
  - intros Ht. rewrite Main_verification by exact Ht.
    split; [reflexivity|]. split; [congruence | now intros ->].
  - apply Main_no_mode.
Qed.

Lemma verification_gate_witness :
  Main le_signed owner_host "addURL" [sample_url] empty_ledger
  = Some (VBool true, empty_ledger)
  /\ Main le_signed stray_host "addURL" [sample_url] empty_ledger
     = Some (VBool false, empty_ledger).
Proof.
  split.
  - destruct (verification_gate le_signed owner_host "addURL" [sample_url] empty_ledger)
      as [H _].
    destruct (H eq_refl) as [H1 _]. exact H1.
  - destruct (verification_gate le_signed stray_host "addURL" [sample_url] empty_ledger)
      as [_ H].
    apply H; discriminate.
Defined.

(** ** C6 *)

(** C6, as stated, fails on the second literal: the result for a wrong
    number of arguments is 'Incorrect number of arguments', with a capital
    I. *)
Lemma addURL_no_argument_literal :
  Main le_signed sample_host "addURL" [] empty_ledger
  = Some (VBytes "Incorrect number of arguments", empty_ledger)
  /\ Main le_signed sample_host "addURL" [] empty_ledger
     <> Some (VBytes "incorrect number of arguments", empty_ledger).
Proof. split; [reflexivity | discriminate]. Qed.

(** C6, amended: in application mode an operation name other than the four
    known ones gives the result 'unknown operation', and [addURL], [getURL]
    or [getURLInfo] with an argument list of a length other than one gives
    the result 'Incorrect number of arguments'; both are returned values
    (the run does not fault) and the ledger is unchanged. *)
Theorem dispatch_errors (as_integer : string -> Z) (host : Host)
    (operation : string) (args : list string) (st : Ledger) :
  Trigger host = Application ->
  (operation <> "shortenerURL" -> operation <> "addURL" ->
   operation <> "getURL" -> operation <> "getURLInfo" ->
   Main as_integer host operation args st = Some (VBytes "unknown operation", st))
  /\ (operation = "addURL" \/ operation = "getURL" \/ operation = "getURLInfo" ->
      List.length args <> 1%nat ->
      Main as_integer host operation args st
      = Some (VBytes "Incorrect number of arguments", st)).
Proof.
  intros Ht. rewrite Main_application by exact Ht. split.
  - intros H1 H2 H3 H4.
    apply String.eqb_neq in H1, H2, H3, H4. now rewrite H1, H2, H3, H4.
  - intros Hop Hlen.
    assert (Hargs : forall (f : string -> option (value * Ledger)),
               match args with
               | [a] => f a
               | _ => Some (VBytes "Incorrect number of arguments", st)
               end = Some (VBytes "Incorrect number of arguments", st)).
    { intros f. destruct args as [|a [|b args]]; simpl in *; congruence. }
    destruct Hop as [-> | [-> | ->]]; simpl; apply Hargs.
Qed.

Lemma dispatch_errors_witness :
  Main le_signed sample_host "frobnicate" [] empty_ledger
  = Some (VBytes "unknown operation", empty_ledger)
  /\ Main le_signed sample_host "addURL" ["a"; "b"] empty_ledger
     = Some (VBytes "Incorrect number of arguments", empty_ledger).
Proof.
  split.
  - apply (dispatch_errors le_signed sample_host "frobnicate" [] empty_ledger);
      [reflexivity | discriminate ..].
  - apply (dispatch_errors le_signed sample_host "addURL" ["a"; "b"] empty_ledger);
      [reflexivity | now left | discriminate].
Defined.

(** ** C7 *)

(** C7: [get_url] and [get_url_info] leave the ledger as it is; a successful
    [add_url] writes the two keys [code ++ "__url"] and [code ++ "__sender"]
    of the code it generated and no other key; and an invocation of [Main]
    either leaves the ledger as it is or is that [add_url]. *)
Theorem only_record_keys_written (as_integer : string -> Z) (host : Host)
    (operation : string) (args : list string) (st : Ledger) :
  (forall code, ledger_after (get_url code st) = Some st)
  /\ (forall code, ledger_after (get_url_info code st) = Some st)
  /\ (forall url r st',
        add_url as_integer host url st = Some (r, st') ->
        exists code ref new,
          nth_error (References (ScriptContainer host)) 0 = Some ref
          /\ trace st' = trace st ++ ENotify code :: new
          /\ storage st' = <[String.append code "__sender" := ScriptHash ref]>
                             (<[String.append code "__url" := url]> (storage st))
          /\ filter is_put new = [EPut (String.append code "__url") url;
                                  EPut (String.append code "__sender") (ScriptHash ref)]
          /\ (forall k, k <> String.append code "__url" ->
                        k <> String.append code "__sender" ->
                        storage st' !! k = storage st !! k))
  /\ (forall r st',
        Main as_integer host operation args st = Some (r, st') ->
        st' = st
        \/ exists url, operation = "addURL" /\ args = [url]
                       /\ add_url as_integer host url st = Some (r, st')).
Proof.
  split; [reflexivity|]. split; [reflexivity|]. split.
  - intros url r st' H.
    destruct (add_url_inv _ _ _ _ _ _ H) as (ref & refs & Href).
    rewrite (add_url_run as_integer host url st ref refs Href) in H.
    injection H as _ <-.
    eexists _, ref, _. rewrite Href. cbn [storage trace].
    split; [reflexivity|]. split; [reflexivity|]. split; [reflexivity|].
    split; [reflexivity|].
    intros k Hu Hs.
    cbv beta zeta delta [get_contextkey_for_url get_contextkey_for_sender concat]
      in Hu, Hs |- *.
    now rewrite !lookup_insert_ne by congruence.
  - intros r st' H.
    destruct (Z.eq_dec (Trigger host) Verification) as [Hv|Hv].
    { rewrite Main_verification in H by exact Hv. left. congruence. }
    destruct (Z.eq_dec (Trigger host) Application) as [Ha|Ha].
    2:{ rewrite Main_no_mode in H by assumption. left. congruence. }
    rewrite Main_application in H by exact Ha.
    destruct (String.eqb operation "shortenerURL"); [left; congruence|].
    destruct (String.eqb operation "addURL") eqn:Hop.
    { apply String.eqb_eq in Hop.
      destruct args as [|url [|? ?]]; [left; congruence | | left; congruence].
      right. now exists url. }
    destruct (String.eqb operation "getURL").
    { destruct args as [|code [|? ?]]; left; [congruence | | congruence].
      rewrite get_url_run in H. congruence. }
    destruct (String.eqb operation "getURLInfo").
    { destruct args as [|code [|? ?]]; left; [congruence | | congruence].
      rewrite get_url_info_run in H. congruence. }
    left. congruence.
Qed.

Lemma only_record_keys_written_witness :
  exists st',
    Main le_signed sample_host "addURL" [sample_url] other_ledger = Some (VBool true, st')
    /\ storage st' !! "k" = Some "v"
    /\ storage st' !! "2j9rum__url" = Some sample_url
    /\ storage st' !! "2j9rum__sender" = Some sample_sender
    /\ (st' = other_ledger
        \/ exists url, "addURL" = "addURL" /\ [sample_url] = [url]
             /\ add_url le_signed sample_host url other_ledger = Some (VBool true, st')).
Proof.
  eexists.
  assert (H : Main le_signed sample_host "addURL" [sample_url] other_ledger
              = Some (VBool true, _)) by (vm_compute; reflexivity).
  split; [exact H|].
  split; [vm_compute; reflexivity|].
  split; [vm_compute; reflexivity|].
  split; [vm_compute; reflexivity|].
  destruct (only_record_keys_written le_signed sample_host "addURL" [sample_url]
              other_ledger) as (_ & _ & _ & HMain).
  exact (HMain _ _ H).
Defined.

(** ** C8 *)



(** ** C9 *)

(** C9: two runs of [add_url] that return, for the same url, at the same
    height and with the same sender, generate the same code, have the same
    effects and return the same value, whatever else differs (the ledger
    before the run, the trigger, the witnesses, further references). *)
Theorem add_url_code_deterministic (as_integer : string -> Z)
    (host1 host2 : Host) (url : string) (st1 st2 st1' st2' : Ledger)
    (r1 r2 : value) :
  Height host1 = Height host2 ->
  option_map ScriptHash (nth_error (References (ScriptContainer host1)) 0)
  = option_map ScriptHash (nth_error (References (ScriptContainer host2)) 0) ->
  add_url as_integer host1 url st1 = Some (r1, st1') ->
  add_url as_integer host2 url st2 = Some (r2, st2') ->
  r1 = r2
  /\ exists code new,
       trace st1' = trace st1 ++ ENotify code :: new
       /\ trace st2' = trace st2 ++ ENotify code :: new.
Proof.
  intros Hh Hs H1 H2.
  destruct (add_url_inv _ _ _ _ _ _ H1) as (ref1 & refs1 & Href1).
  destruct (add_url_inv _ _ _ _ _ _ H2) as (ref2 & refs2 & Href2).
  rewrite Href1, Href2 in Hs. simpl in Hs. injection Hs as Hs.
  rewrite (add_url_run as_integer host1 url st1 ref1 refs1 Href1) in H1.
  rewrite (add_url_run as_integer host2 url st2 ref2 refs2 Href2) in H2.
  injection H1 as <- <-. injection H2 as <- <-.
  rewrite Hh, Hs. split; [reflexivity|].
  eexists _, _. split; reflexivity.
Qed.

Lemma add_url_code_deterministic_witness :
  exists st1' st2',
    add_url le_signed bare_host "" empty_ledger = Some (VBool true, st1')
    /\ add_url le_signed bare_other_host "" other_ledger = Some (VBool true, st2')
    /\ VBool true = VBool true
    /\ exists code new,
         trace st1' = trace empty_ledger ++ ENotify code :: new
         /\ trace st2' = trace other_ledger ++ ENotify code :: new.
Proof.
  eexists _, _.
  assert (H1 : add_url le_signed bare_host "" empty_ledger
               = Some (VBool true, _)) by (vm_compute; reflexivity).
  assert (H2 : add_url le_signed bare_other_host "" other_ledger
               = Some (VBool true, _)) by (vm_compute; reflexivity).
  split; [exact H1|]. split; [exact H2|].
  exact (add_url_code_deterministic le_signed bare_host bare_other_host ""
           _ _ _ _ _ _ eq_refl eq_refl H1 H2).
Defined.

(** ** An end-to-end run through the dispatcher *)

Example addURL_then_getURLInfo :
  exists st',
    ledger_after (Main le_signed sample_host "addURL" [sample_url] empty_ledger)
    = Some st'
    /\ Main le_signed sample_host "getURL" ["2j9rum"] st'
       = Some (VBytes sample_url, st')
    /\ Main le_signed sample_host "getURLInfo" ["2j9rum"] st'
       = Some (VList [sample_url; sample_sender], st')
    /\ Main le_signed sample_host "getURL" ["never added"] st'
       = Some (VBytes "", st').
Proof.
  eexists. split; [vm_compute; reflexivity|].
  repeat split; vm_compute; reflexivity.
Qed.

(** * Further properties of the encoder *)

Lemma length_append (a b : string) :
  String.length (String.append a b) = (String.length a + String.length b)%nat.
Proof.
  induction a as [|x a IH]; [reflexivity|].
  rewrite append_cons. simpl. now rewrite IH.
Qed.

Lemma list_ascii_of_append (a b : string) :
  list_ascii_of_string (String.append a b)
  = list_ascii_of_string a ++ list_ascii_of_string b.
Proof.
  induction a as [|x a IH]; [reflexivity|].
  rewrite append_cons. simpl. now rewrite IH.
Qed.

Lemma list_ascii_of_string_inj (a b : string) :
  list_ascii_of_string a = list_ascii_of_string b -> a = b.
Proof.
  intros H. rewrite <- (string_of_list_ascii_of_string a),
              <- (string_of_list_ascii_of_string b).
  now rewrite H.
Qed.

(** Digits are told apart by their characters. *)
Lemma digit_char_inj (d e : Z) :
  0 <= d < 58 -> 0 <= e < 58 -> digit_char d = digit_char e -> d = e.
Proof.
  intros Hd He H.
  assert (Hall : forallb (fun k => forallb (fun l =>
                   implb (Ascii.eqb (digit_char (Z.of_nat k)) (digit_char (Z.of_nat l)))
                         (Nat.eqb k l)) (seq 0 58)) (seq 0 58) = true)
    by (vm_compute; reflexivity).
  rewrite forallb_forall in Hall.
  specialize (Hall _ (below_58 d Hd)). rewrite forallb_forall in Hall.
  specialize (Hall _ (below_58 e He)).
  rewrite !Z2Nat.id in Hall by lia.
  rewrite H, Ascii.eqb_refl in Hall. simpl in Hall.
  apply Nat.eqb_eq in Hall. lia.
Qed.

Lemma map_digit_char_inj (ds es : list Z) :
  (forall d, In d ds -> 0 <= d < 58) -> (forall e, In e es -> 0 <= e < 58) ->
  map digit_char ds = map digit_char es -> ds = es.
Proof.
  revert es. induction ds as [|d ds IH]; intros [|e es] Hd He H; simpl in *;
    try discriminate; [reflexivity|].
  injection H as H1 H2. f_equal.
  - apply digit_char_inj; auto.
  - apply IH; auto.
Qed.

Lemma code_of_digits_not_NUL (ds : list Z) :
  (forall d, In d ds -> 0 <= d < 58) -> code_of_digits ds <> NUL.
Proof.
  intros Hr E. apply (f_equal list_ascii_of_string) in E.
  unfold code_of_digits in E. rewrite list_ascii_of_string_of_list_ascii in E.
  assert (Hin : In Ascii.zero (rev (map digit_char ds))) by (rewrite E; now left).
  apply in_rev, in_map_iff in Hin as (d & Hz & Hd).
  exact (digit_char_not_zero d (Hr d Hd) Hz).
Qed.

(** Two lists of digits with the same string are the same list. *)
Lemma code_or_NUL_inj (ds es : list Z) :
  (forall d, In d ds -> 0 <= d < 58) -> (forall e, In e es -> 0 <= e < 58) ->
  code_or_NUL ds = code_or_NUL es -> ds = es.
Proof.
  intros Hd He H.
  destruct ds as [|d ds], es as [|e es]; try reflexivity.
  - symmetry in H. now apply code_of_digits_not_NUL in H.
  - now apply code_of_digits_not_NUL in H.
  - unfold code_or_NUL, code_of_digits in H.
    apply (f_equal list_ascii_of_string) in H.
    rewrite !list_ascii_of_string_of_list_ascii in H.
    apply (f_equal (@rev ascii)) in H. rewrite !rev_involutive in H.
    now apply map_digit_char_inj.
Qed.

Lemma b58encode_eq_digits (i j n : Z) :
  b58encode i n = b58encode j n
  <-> b58digits (Z.to_nat n) i = b58digits (Z.to_nat n) j.
Proof.
  rewrite !b58encode_digits. split; [|now intros ->].
  apply code_or_NUL_inj; intros d; apply b58digits_range.
Qed.

(** The digits of [i] stand for [i] modulo 58 to the number of digits
    allowed. *)
Lemma digits_value_b58digits (n : nat) (i : Z) :
  digits_value (b58digits n i) = i mod 58 ^ Z.of_nat n.
Proof.
  revert i. induction n as [|n IH]; intros i.
  - simpl. now rewrite Z.mod_1_r.
  - cbn [b58digits]. rewrite Nat2Z.inj_succ, Z.pow_succ_r by lia.
    assert (Hp : 0 < 58 ^ Z.of_nat n) by (apply Z.pow_pos_nonneg; lia).
    destruct (i =? 0) eqn:Hi.
    + apply Z.eqb_eq in Hi. subst. simpl. now rewrite Z.mod_0_l by lia.
    + cbn [digits_value fold_right]. fold (digits_value (b58digits n (i / 58))).
      rewrite IH. symmetry. apply Z.rem_mul_r; lia.
Qed.

(** A number below 58 to the [n] has one list of [n] digits. *)
Lemma digits_value_inj (ds es : list Z) :
  List.length ds = List.length es ->
  (forall d, In d ds -> 0 <= d < 58) -> (forall e, In e es -> 0 <= e < 58) ->
  digits_value ds = digits_value es -> ds = es.
Proof.
  revert es. induction ds as [|d ds IH]; intros [|e es] Hl Hd He H; simpl in *;
    try discriminate; [reflexivity|].
  fold (digits_value ds) in H. fold (digits_value es) in H.
  assert (Rd : 0 <= d < 58) by auto. assert (Re : 0 <= e < 58) by auto.
  assert (d = e /\ digits_value ds = digits_value es) as [-> Hv] by lia.
  f_equal. apply IH; auto.
Qed.

Lemma length_b58encode (i n : Z) :
  String.length (b58encode i n)
  = Nat.max 1 (List.length (b58digits (Z.to_nat n) i)).
Proof.
  rewrite b58encode_digits.
  destruct (b58digits (Z.to_nat n) i) as [|d ds] eqn:E; [reflexivity|].
  unfold code_or_NUL. rewrite length_code_of_digits. simpl. lia.
Qed.

(** The loop emits all [n] digits exactly when [i] is negative or has at
    least [n] digits. *)
Lemma length_b58digits_full (n : nat) (i : Z) :
  (0 < n)%nat ->
  List.length (b58digits n i) = n <-> i < 0 \/ 58 ^ (Z.of_nat n - 1) <= i.
Proof.
  intros Hn.
  assert (Hp : 0 < 58 ^ (Z.of_nat n - 1)) by (apply Z.pow_pos_nonneg; lia).
  split.
  - intros Hlen.
    pose proof (b58digits_rest n i (n - 1)) as Hrest.
    specialize (Hrest ltac:(lia)).
    replace (Z.of_nat (n - 1)) with (Z.of_nat n - 1) in Hrest by lia.
    destruct (Z.lt_ge_cases i 0) as [|H0]; [now left|right].
    destruct (Z.lt_ge_cases i (58 ^ (Z.of_nat n - 1))) as [Hlt|]; [|assumption].
    exfalso. apply Hrest. apply Z.div_small. lia.
  - intros Hi.
    pose proof (length_b58digits n i) as Hle.
    destruct (b58digits_stop n i) as [H|H]; [exact H|].
    set (len := List.length (b58digits n i)) in *.
    assert (Hq : 0 < 58 ^ Z.of_nat len) by (apply Z.pow_pos_nonneg; lia).
    apply Z.div_small_iff in H; [|lia].
    destruct H as [H|H]; [|lia].
    destruct Hi as [Hi|Hi]; [lia|].
    destruct (Nat.eq_dec len n) as [|Hne]; [assumption|].
    assert (58 ^ Z.of_nat len <= 58 ^ (Z.of_nat n - 1))
      by (apply Z.pow_le_mono_r; lia).
    lia.
Qed.

(** X1: [b58encode] never returns the empty string: its result has at least
    one and at most [max 1 max_length] characters, for every integer [i]
    (negative ones too), and it is the initial '\x00' exactly when [i = 0] or
    [max_length <= 0]. *)
Theorem b58encode_never_empty (i n : Z) :
  1 <= Z.of_nat (String.length (b58encode i n)) <= Z.max 1 n
  /\ (b58encode i n = NUL <-> i = 0 \/ n <= 0).
Proof.
  split.
  - rewrite length_b58encode.
    pose proof (length_b58digits (Z.to_nat n) i). lia.
  - rewrite b58encode_digits. split.
    + intros H.
      destruct (b58digits (Z.to_nat n) i) as [|d ds] eqn:E.
      * apply b58digits_nil in E. lia.
      * exfalso. revert H. apply code_of_digits_not_NUL.
        intros e He. apply (b58digits_range (Z.to_nat n) i). now rewrite E.
    + intros H.
      assert (E : b58digits (Z.to_nat n) i = []) by (apply b58digits_nil; lia).
      now rewrite E.
Qed.

(** X2: for a non-zero [i] and a positive [max_length], the result has
    exactly [max_length] characters if and only if [i] is negative or has at
    least [max_length] base-58 digits; a negative [i] therefore always fills
    the whole length. *)
Theorem b58encode_full_length (i n : Z) :
  0 < n -> i <> 0 ->
  (Z.of_nat (String.length (b58encode i n)) = n
   <-> i < 0 \/ 58 ^ (n - 1) <= i).
Proof.
  intros Hn Hi. rewrite length_b58encode.
  assert (Hne : b58digits (Z.to_nat n) i <> [])
    by (rewrite b58digits_nil; lia).
  assert (Hl : (1 <= List.length (b58digits (Z.to_nat n) i))%nat)
    by (destruct (b58digits (Z.to_nat n) i); [contradiction | simpl; lia]).
  pose proof (length_b58digits_full (Z.to_nat n) i ltac:(lia)) as Hfull.
  rewrite Z2Nat.id in Hfull by lia.
  rewrite <- Hfull. lia.
Qed.

Lemma b58encode_full_length_witness :
  (Z.of_nat (String.length (b58encode (-1) 3)) = 3
   <-> -1 < 0 \/ 58 ^ (3 - 1) <= -1)
  /\ (Z.of_nat (String.length (b58encode 100 3)) = 3
      <-> 100 < 0 \/ 58 ^ (3 - 1) <= 100).
Proof.
  split.
  - apply (b58encode_full_length (-1) 3); lia.
  - apply (b58encode_full_length 100 3); lia.
Defined.

(** X3: the encoding keeps [i] modulo 58 to the [max_length] and nothing
    else of it: two inputs with the same result are congruent modulo
    58 ^ max(0, max_length). *)
Theorem b58encode_equal_implies_congruent (i j n : Z) :
  b58encode i n = b58encode j n ->
  i mod 58 ^ Z.max 0 n = j mod 58 ^ Z.max 0 n.
Proof.
  intros H. apply b58encode_eq_digits in H.
  replace (Z.max 0 n) with (Z.of_nat (Z.to_nat n)) by lia.
  rewrite <- !digits_value_b58digits. now rewrite H.
Qed.

Lemma b58encode_equal_implies_congruent_witness :
  63 mod 58 ^ Z.max 0 2 = 3427 mod 58 ^ Z.max 0 2.
Proof.
  apply (b58encode_equal_implies_congruent 63 3427 2). reflexivity.
Defined.

(** X4: below 58 to the [max_length] the encoding loses nothing: two
    non-negative inputs below that bound with the same result are equal. *)
Theorem b58encode_injective_below (i j n : Z) :
  0 <= i < 58 ^ n -> 0 <= j < 58 ^ n ->
  b58encode i n = b58encode j n -> i = j.
Proof.
  intros Hi Hj H.
  assert (Hn : 0 <= n).
  { destruct (Z.lt_ge_cases n 0) as [Hneg|]; [|assumption].
    rewrite Z.pow_neg_r in Hi by exact Hneg. lia. }
  apply b58encode_eq_digits in H.
  apply (f_equal digits_value) in H.
  rewrite !digits_value_b58digits, Z2Nat.id in H by exact Hn.
  now rewrite !Z.mod_small in H by assumption.
Qed.

Lemma b58encode_injective_below_witness : 100 = 42 + 58.
Proof.
  apply (b58encode_injective_below 100 (42 + 58) 11);
    [split; [lia | reflexivity] | split; [lia | reflexivity] | reflexivity].
Defined.

(** Inputs that fill the whole length and are congruent modulo 58 to the [n]
    have the same digits. *)
Lemma b58digits_congruent (i j n : Z) :
  0 < n ->
  i < 0 \/ 58 ^ (n - 1) <= i ->
  j < 0 \/ 58 ^ (n - 1) <= j ->
  i mod 58 ^ n = j mod 58 ^ n ->
  b58digits (Z.to_nat n) i = b58digits (Z.to_nat n) j.
Proof.
  intros Hn Hi Hj Hmod.
  pose proof (length_b58digits_full (Z.to_nat n) i ltac:(lia)) as Fi.
  pose proof (length_b58digits_full (Z.to_nat n) j ltac:(lia)) as Fj.
  rewrite Z2Nat.id in Fi, Fj by lia.
  apply digits_value_inj.
  - apply Fi in Hi. apply Fj in Hj. congruence.
  - intros d. apply b58digits_range.
  - intros d. apply b58digits_range.
  - rewrite !digits_value_b58digits, Z2Nat.id by lia. exact Hmod.
Qed.

(** X5: from 58 to the [max_length - 1] on (and for negative inputs) the
    encoding is lossy in exactly this way: two such inputs that are
    congruent modulo 58 to the [max_length] have the same result. *)
Theorem b58encode_congruent_collide (i j n : Z) :
  0 < n ->
  i < 0 \/ 58 ^ (n - 1) <= i ->
  j < 0 \/ 58 ^ (n - 1) <= j ->
  i mod 58 ^ n = j mod 58 ^ n ->
  b58encode i n = b58encode j n.
Proof.
  intros Hn Hi Hj Hmod. apply b58encode_eq_digits.
  now apply b58digits_congruent.
Qed.

Lemma b58encode_congruent_collide_witness :
  b58encode 97 2 = b58encode 3461 2.
Proof.
  apply (b58encode_congruent_collide 97 3461 2); [lia | right; lia | right; lia |].
  reflexivity.
Defined.

(** * Further properties of the record store and the dispatcher *)

(** ** Keys *)

Lemma append_inj_r (a b s : string) :
  String.append a s = String.append b s -> a = b.
Proof.
  intros H. apply (f_equal list_ascii_of_string) in H.
  rewrite !list_ascii_of_append in H.
  apply app_inv_tail in H. now apply list_ascii_of_string_inj.
Qed.

Lemma url_key_not_sender_key (a b : string) :
  String.append a "__url" <> String.append b "__sender".
Proof.
  intros H. apply (f_equal list_ascii_of_string) in H.
  rewrite !list_ascii_of_append in H.
  change (list_ascii_of_string "__url")
    with (list_ascii_of_string "__ur" ++ ["l"%char]) in H.
  change (list_ascii_of_string "__sender")
    with (list_ascii_of_string "__sende" ++ ["r"%char]) in H.
  rewrite !app_assoc in H.
  apply app_inj_tail in H as [_ H]. discriminate H.
Qed.

(** X6: the keys of records do not collide: a url key is never a sender key,
    of the same code or of another, and two codes with the same url key (or
    the same sender key) are the same code. *)
Theorem contextkeys_separate (code code' : string) :
  get_contextkey_for_url code <> get_contextkey_for_sender code'
  /\ (get_contextkey_for_url code = get_contextkey_for_url code' <-> code = code')
  /\ (get_contextkey_for_sender code = get_contextkey_for_sender code'
      <-> code = code').
Proof.
  unfold get_contextkey_for_url, get_contextkey_for_sender, concat.
  split; [apply url_key_not_sender_key|].
  split; (split; [apply append_inj_r | now intros ->]).
Qed.

(** ** One step of the ledger *)

(** An invocation that returns either did not touch the ledger or was a
    successful [add_url]. *)
Lemma Main_step (as_integer : string -> Z) (host : Host) (operation : string)
    (args : list string) (st st' : Ledger) (r : value) :
  Main as_integer host operation args st = Some (r, st') ->
  st' = st \/ exists url, add_url as_integer host url st = Some (r, st').
Proof.
  intros H.
  destruct (Z.eq_dec (Trigger host) Verification) as [Hv|Hv].
  { rewrite Main_verification in H by exact Hv. left. congruence. }
  destruct (Z.eq_dec (Trigger host) Application) as [Ha|Ha].
  2:{ rewrite Main_no_mode in H by assumption. left. congruence. }
  rewrite Main_application in H by exact Ha.
  destruct (String.eqb operation "shortenerURL"); [left; congruence|].
  destruct (String.eqb operation "addURL").
  { destruct args as [|url [|? ?]]; [left; congruence | | left; congruence].
    right. now exists url. }
  destruct (String.eqb operation "getURL").
  { destruct args as [|code [|? ?]]; left; [congruence | | congruence].
    rewrite get_url_run in H. congruence. }
  destruct (String.eqb operation "getURLInfo").
  { destruct args as [|code [|? ?]]; left; [congruence | | congruence].
    rewrite get_url_info_run in H. congruence. }
  left. congruence.
Qed.

(** A successful [add_url], with its keys written as concatenations. *)
Lemma add_url_result (as_integer : string -> Z) (host : Host) (url : string)
    (st st' : Ledger) (r : value) :
  add_url as_integer host url st = Some (r, st') ->
  exists ref refs code,
    References (ScriptContainer host) = ref :: refs
    /\ code = String.append (String.append (b58encode (Height host) 11)
                               (b58encode (as_integer (ScriptHash ref)) 2))
                            (b58encode (as_integer url) 2)
    /\ r = VBool true
    /\ storage st' = <[String.append code "__sender" := ScriptHash ref]>
                       (<[String.append code "__url" := url]> (storage st))
    /\ trace st' = trace st ++ [ENotify code;
                                EPut (String.append code "__url") url;
                                EPut (String.append code "__sender") (ScriptHash ref);
                                EAction "urladd" [code; url]].
Proof.
  intros H. destruct (add_url_inv _ _ _ _ _ _ H) as (ref & refs & Href).
  rewrite (add_url_run as_integer host url st ref refs Href) in H.
  injection H as <- <-.
  exists ref, refs. eexists. split; [exact Href|].
  split; [reflexivity|]. split; [reflexivity|]. split; reflexivity.
Qed.

(** X7: the code a successful [add_url] generates has between 3 and 15
    characters: each of the three segments has at least one (the '\x00' of
    an empty segment counts) and at most 11, 2 and 2. *)
Theorem add_url_code_length (as_integer : string -> Z) (host : Host)
    (url : string) (st st' : Ledger) (r : value) :
  add_url as_integer host url st = Some (r, st') ->
  exists code new,
    trace st' = trace st ++ ENotify code :: new
    /\ (3 <= String.length code <= 15)%nat.
Proof.
  intros H.
  destruct (add_url_result _ _ _ _ _ _ H) as (ref & refs & code & _ & Hc & _ & _ & Ht).
  exists code. eexists. split; [exact Ht|].
  rewrite Hc, !length_append, !length_b58encode.
  pose proof (length_b58digits (Z.to_nat 11) (Height host)).
  pose proof (length_b58digits (Z.to_nat 2) (as_integer (ScriptHash ref))).
  pose proof (length_b58digits (Z.to_nat 2) (as_integer url)).
  lia.
Qed.

Lemma add_url_code_length_witness :
  exists st' code new,
    add_url le_signed sample_host sample_url empty_ledger = Some (VBool true, st')
    /\ trace st' = trace empty_ledger ++ ENotify code :: new
    /\ (3 <= String.length code <= 15)%nat.
Proof.
  eexists.
  assert (H : add_url le_signed sample_host sample_url empty_ledger
              = Some (VBool true, _)) by (vm_compute; reflexivity).
  destruct (add_url_code_length _ _ _ _ _ _ H) as (code & new & P).
  exists code, new. split; [exact H | exact P].
Defined.

(** ** How invocations compose *)

(** X8: a successful [add_url] changes what [get_url] and [get_url_info]
    return for the code it generated only: every other code reads as
    before. *)
Theorem add_url_leaves_other_codes (as_integer : string -> Z) (host : Host)
    (url : string) (st st' : Ledger) (r : value) :
  add_url as_integer host url st = Some (r, st') ->
  exists code new,
    trace st' = trace st ++ ENotify code :: new
    /\ forall code', code' <> code ->
         result_of (get_url code' st') = result_of (get_url code' st)
         /\ result_of (get_url_info code' st') = result_of (get_url_info code' st).
Proof.
  intros H.
  destruct (add_url_result _ _ _ _ _ _ H)
    as (ref & refs & code & _ & _ & _ & Hs & Ht).
  exists code. eexists. split; [exact Ht|].
  intros code' Hne.
  rewrite !get_url_run, !get_url_info_run. cbn [result_of].
  cbv beta zeta delta [get_contextkey_for_url get_contextkey_for_sender concat].
  rewrite Hs.
  assert (Hu : String.append code "__url" <> String.append code' "__url")
    by (intros E; apply append_inj_r in E; congruence).
  assert (Hse : String.append code "__sender" <> String.append code' "__sender")
    by (intros E; apply append_inj_r in E; congruence).
  assert (Hx : String.append code "__sender" <> String.append code' "__url")
    by (apply not_eq_sym, url_key_not_sender_key).
  assert (Hy : String.append code "__url" <> String.append code' "__sender")
    by apply url_key_not_sender_key.
  now rewrite !lookup_insert_ne by assumption.
Qed.

Lemma add_url_leaves_other_codes_witness :
  exists st' code new,
    add_url le_signed sample_host sample_url other_ledger = Some (VBool true, st')
    /\ trace st' = trace other_ledger ++ ENotify code :: new
    /\ forall code', code' <> code ->
         result_of (get_url code' st') = result_of (get_url code' other_ledger)
         /\ result_of (get_url_info code' st')
            = result_of (get_url_info code' other_ledger).
Proof.
  eexists.
  assert (H : add_url le_signed sample_host sample_url other_ledger
              = Some (VBool true, _)) by (vm_compute; reflexivity).
  destruct (add_url_leaves_other_codes _ _ _ _ _ _ H) as (code & new & P).
  exists code, new. split; [exact H | exact P].
Defined.

(** X9: there is no uniqueness check.  For the same height and sender, a
    url whose integer fills two base-58 digits and is congruent modulo
    58 ^ 2 to that of an earlier url gets the same code, and the later
    [add_url] replaces the record: [get_url] then returns the later url. *)
Theorem add_url_collision_overwrites (as_integer : string -> Z) (host : Host)
    (url1 url2 : string) (st st1 : Ledger) (r1 : value) :
  add_url as_integer host url1 st = Some (r1, st1) ->
  as_integer url1 < 0 \/ 58 ^ (2 - 1) <= as_integer url1 ->
  as_integer url2 < 0 \/ 58 ^ (2 - 1) <= as_integer url2 ->
  as_integer url1 mod 58 ^ 2 = as_integer url2 mod 58 ^ 2 ->
  exists code new1 new2 st2,
    trace st1 = trace st ++ ENotify code :: new1
    /\ add_url as_integer host url2 st1 = Some (VBool true, st2)
    /\ trace st2 = trace st1 ++ ENotify code :: new2
    /\ get_url code st2 = Some (VBytes url2, st2).
Proof.
  intros H H1 H2 Hmod.
  destruct (add_url_result _ _ _ _ _ _ H)
    as (ref & refs & code & Href & Hc & _ & _ & Ht).
  assert (Hseg : b58encode (as_integer url1) 2 = b58encode (as_integer url2) 2).
  { apply b58encode_eq_digits. apply b58digits_congruent; [lia | assumption ..]. }
  pose proof (add_url_run as_integer host url2 st1 ref refs Href) as Hrun.
  cbv zeta in Hrun. unfold concat in Hrun. rewrite <- Hseg, <- Hc in Hrun.
  exists code. eexists _, _, _.
  split; [exact Ht|]. split; [exact Hrun|]. split; [reflexivity|].
  rewrite get_url_run. cbn [storage].
  rewrite lookup_insert_ne by (apply not_eq_sym, contextkeys_differ).
  now rewrite lookup_insert_eq.
Qed.

Lemma add_url_collision_overwrites_witness :
  exists st1 code new1 new2 st2,
    add_url le_signed sample_host "a" empty_ledger = Some (VBool true, st1)
    /\ trace st1 = trace empty_ledger ++ ENotify code :: new1
    /\ add_url le_signed sample_host colliding_url st1 = Some (VBool true, st2)
    /\ trace st2 = trace st1 ++ ENotify code :: new2
    /\ get_url code st2 = Some (VBytes colliding_url, st2).
Proof.
  eexists.
  assert (H : add_url le_signed sample_host "a" empty_ledger
              = Some (VBool true, _)) by (vm_compute; reflexivity).
  destruct (add_url_collision_overwrites le_signed sample_host "a" colliding_url
              _ _ _ H) as (code & new1 & new2 & st2 & P);
    [right; vm_compute; discriminate | right; vm_compute; discriminate
     | vm_compute; reflexivity |].
  exists code, new1, new2, st2. split; [exact H | exact P].
Defined.

(** X10: adding the same url again in the same context writes the same two
    entries: the run succeeds again and the store is as after the first
    run. *)
Theorem add_url_again_same_store (as_integer : string -> Z) (host : Host)
    (url : string) (st st' : Ledger) (r : value) :
  add_url as_integer host url st = Some (r, st') ->
  exists st'',
    add_url as_integer host url st' = Some (r, st'')
    /\ storage st'' = storage st'.
Proof.
  intros H.
  destruct (add_url_result _ _ _ _ _ _ H)
    as (ref & refs & code & Href & Hc & -> & Hs & _).
  pose proof (add_url_run as_integer host url st' ref refs Href) as Hrun.
  cbv zeta in Hrun. unfold concat in Hrun. rewrite <- Hc in Hrun.
  eexists. split; [exact Hrun|]. cbn [storage].
  cbv beta zeta delta [get_contextkey_for_url get_contextkey_for_sender concat].
  rewrite Hs. apply map_eq. intros k.
  destruct (decide (String.append code "__sender" = k)) as [<-|Hk].
  { now rewrite !lookup_insert_eq. }
  rewrite !(lookup_insert_ne _ (String.append code "__sender")) by exact Hk.
  destruct (decide (String.append code "__url" = k)) as [<-|Hk'].
  { now rewrite !lookup_insert_eq. }
  now rewrite !lookup_insert_ne by assumption.
Qed.

Lemma add_url_again_same_store_witness :
  exists st' st'',
    add_url le_signed sample_host sample_url other_ledger = Some (VBool true, st')
    /\ add_url le_signed sample_host sample_url st' = Some (VBool true, st'')
    /\ storage st'' = storage st'.
Proof.
  eexists.
  assert (H : add_url le_signed sample_host sample_url other_ledger
              = Some (VBool true, _)) by (vm_compute; reflexivity).
  destruct (add_url_again_same_store _ _ _ _ _ _ H) as (st'' & P).
  exists st''. split; [exact H | exact P].
Defined.

(** X11: every invocation other than [addURL] with exactly one argument in
    application mode returns a value and leaves the ledger as it is; and
    [addURL] with exactly one argument in application mode faults on a
    transaction without references ([references[0]] raises). *)
Theorem Main_returns_outside_addURL (as_integer : string -> Z) (host : Host)
    (operation : string) (args : list string) (st : Ledger) :
  (Trigger host <> Application \/ operation <> "addURL"
   \/ List.length args <> 1%nat ->
   exists r, Main as_integer host operation args st = Some (r, st))
  /\ (Trigger host = Application -> operation = "addURL" ->
      List.length args = 1%nat -> References (ScriptContainer host) = [] ->
      Main as_integer host operation args st = None).
Proof.
  split.
  - intros Hout.
    destruct (Z.eq_dec (Trigger host) Verification) as [Hv|Hv].
    { rewrite Main_verification by exact Hv. eauto. }
    destruct (Z.eq_dec (Trigger host) Application) as [Ha|Ha].
    2:{ rewrite Main_no_mode by assumption. eauto. }
    rewrite Main_application by exact Ha.
    destruct (String.eqb operation "shortenerURL"); [eauto|].
    destruct (String.eqb operation "addURL") eqn:Hop.
    { apply String.eqb_eq in Hop.
      destruct args as [|url [|? ?]]; [eauto | | eauto].
      exfalso. simpl in Hout. intuition. }
    destruct (String.eqb operation "getURL").
    { destruct args as [|code [|? ?]]; [eauto | | eauto].
      rewrite get_url_run. eauto. }
    destruct (String.eqb operation "getURLInfo").
    { destruct args as [|code [|? ?]]; [eauto | | eauto].
      rewrite get_url_info_run. eauto. }
    eauto.
  - intros Ht -> Hlen Href.
    rewrite Main_application by exact Ht. simpl.
    destruct args as [|url [|? ?]]; try discriminate.
    now apply add_url_fault.
Qed.

Lemma Main_returns_outside_addURL_witness :
  (exists r, Main le_signed sample_host "getURL" ["2j"] other_ledger
             = Some (r, other_ledger))
  /\ Main le_signed unfunded_host "addURL" [""] other_ledger = None.
Proof.
  split.
  - apply (Main_returns_outside_addURL le_signed sample_host "getURL" ["2j"]
             other_ledger).
    right; left; discriminate.
  - apply (Main_returns_outside_addURL le_signed unfunded_host "addURL" [""]
             other_ledger); reflexivity.
Defined.

(** ** Ledgers the contract can reach *)

(** In a reachable ledger every stored key is one of the two keys of a code
    that was notified, and both keys of that code are stored. *)
Lemma reachable_keys (as_integer : string -> Z) (st : Ledger) :
  reachable as_integer st ->
  forall k, is_Some (storage st !! k) ->
    exists code,
      In (ENotify code) (trace st)
      /\ (k = String.append code "__url" \/ k = String.append code "__sender")
      /\ is_Some (storage st !! String.append code "__url")
      /\ is_Some (storage st !! String.append code "__sender").
Proof.
  induction 1 as [|st st' host operation args r Hreach IH Hstep]; intros k Hk.
  - simpl in Hk. rewrite lookup_empty in Hk. now destruct Hk.
  - destruct (Main_step _ _ _ _ _ _ _ Hstep) as [-> | [url Hadd]]; [now apply IH|].
    destruct (add_url_result _ _ _ _ _ _ Hadd)
      as (ref & refs & code & _ & _ & _ & Hs & Ht).
    rewrite Hs, Ht in *.
    assert (Hnew : is_Some (<[String.append code "__sender" := ScriptHash ref]>
                     (<[String.append code "__url" := url]> (storage st))
                     !! String.append code "__url")
                   /\ is_Some (<[String.append code "__sender" := ScriptHash ref]>
                     (<[String.append code "__url" := url]> (storage st))
                     !! String.append code "__sender")).
    { rewrite !lookup_insert_is_Some. split.
      - destruct (decide (String.append code "__sender" = String.append code "__url"));
          auto.
      - auto. }
    rewrite !lookup_insert_is_Some in Hk.
    assert (Hcases : k = String.append code "__url"
                     \/ k = String.append code "__sender"
                     \/ is_Some (storage st !! k)) by (clear -Hk; intuition).
    destruct Hcases as [-> | [-> | Hold]].
    + exists code. split; [apply in_or_app; right; now left|]. split; [now left|].
      exact Hnew.
    + exists code. split; [apply in_or_app; right; now left|]. split; [now right|].
      exact Hnew.
    + destruct (IH k Hold) as (code0 & Hin & Hshape & Hu & Hse).
      exists code0. split; [apply in_or_app; now left|]. split; [exact Hshape|].
      rewrite !lookup_insert_is_Some.
      split.
      * destruct (decide (String.append code "__sender" = String.append code0 "__url"));
          [now left|right; split; [assumption|]].
        destruct (decide (String.append code "__url" = String.append code0 "__url"));
          [now left | now right].
      * destruct (decide (String.append code "__sender" = String.append code0 "__sender"));
          [now left|right; split; [assumption|]].
        destruct (decide (String.append code "__url" = String.append code0 "__sender"));
          [now left | now right].
Qed.

Lemma sample_ledger_reachable : reachable le_signed sample_ledger.
Proof.
  apply (reach_step le_signed empty_ledger sample_ledger sample_host
           "addURL" [sample_url] (VBool true)); [apply reach_init|].
  vm_compute. reflexivity.
Qed.

(** X12: in every ledger the contract can reach, the store holds whole
    records only: each stored key is the url key or the sender key of a code
    that was notified, and for every code the url entry is present exactly
    when the sender entry is. *)
Theorem reachable_records_complete (as_integer : string -> Z) (st : Ledger) :
  reachable as_integer st ->
  (forall k, is_Some (storage st !! k) ->
     exists code, In (ENotify code) (trace st)
                  /\ (k = get_contextkey_for_url code
                      \/ k = get_contextkey_for_sender code))
  /\ (forall code,
        is_Some (storage st !! get_contextkey_for_url code)
        <-> is_Some (storage st !! get_contextkey_for_sender code)).
Proof.
  intros Hreach.
  unfold get_contextkey_for_url, get_contextkey_for_sender, concat. split.
  - intros k Hk.
    destruct (reachable_keys _ _ Hreach k Hk) as (code & Hin & Hshape & _).
    now exists code.
  - intros code. split; intros Hk;
      destruct (reachable_keys _ _ Hreach _ Hk) as (code0 & _ & [E|E] & Hu & Hse).
    + apply append_inj_r in E. now subst.
    + now apply url_key_not_sender_key in E.
    + symmetry in E. now apply url_key_not_sender_key in E.
    + apply append_inj_r in E. now subst.
Qed.

Lemma reachable_records_complete_witness :
  is_Some (storage sample_ledger !! get_contextkey_for_url "2j9rum")
  <-> is_Some (storage sample_ledger !! get_contextkey_for_sender "2j9rum").
Proof.
  destruct (reachable_records_complete le_signed sample_ledger
              sample_ledger_reachable) as [_ H].
  exact (H "2j9rum").
Defined.

(** X13: no invocation removes an entry or rewrites the trace: every key
    stored before is stored after, and the trace after is the trace before
    with the effects of the invocation appended. *)
Theorem Main_keeps_keys (as_integer : string -> Z) (host : Host)
    (operation : string) (args : list string) (st st' : Ledger) (r : value) :
  Main as_integer host operation args st = Some (r, st') ->
  (forall k, is_Some (storage st !! k) -> is_Some (storage st' !! k))
  /\ exists new, trace st' = trace st ++ new.
Proof.
  intros H. destruct (Main_step _ _ _ _ _ _ _ H) as [-> | [url Hadd]].
  - split; [auto|]. exists []. now rewrite app_nil_r.
  - destruct (add_url_result _ _ _ _ _ _ Hadd)
      as (ref & refs & code & _ & _ & _ & Hs & Ht).
    rewrite Hs, Ht. split; [|now eexists].
    intros k Hk. rewrite !lookup_insert_is_Some.
    destruct (decide (String.append code "__sender" = k)); [now left|].
    right. split; [assumption|].
    destruct (decide (String.append code "__url" = k)); [now left | now right].
Qed.

Lemma Main_keeps_keys_witness :
  exists st',
    Main le_signed sample_host "addURL" [sample_url] other_ledger
    = Some (VBool true, st')
    /\ (forall k, is_Some (storage other_ledger !! k) -> is_Some (storage st' !! k))
    /\ exists new, trace st' = trace other_ledger ++ new.
Proof.
  eexists.
  assert (H : Main le_signed sample_host "addURL" [sample_url] other_ledger
              = Some (VBool true, _)) by (vm_compute; reflexivity).
  split; [exact H|].
  exact (Main_keeps_keys _ _ _ _ _ _ _ H).
Defined.

(** X14: in every ledger the contract can reach, a code that was never
    generated reads as missing: in application mode [getURL] returns the
    empty string and [getURLInfo] the pair of two empty strings, without a
    fault and without touching the ledger. *)
Theorem reachable_unknown_code_reads_empty (as_integer : string -> Z)
    (st : Ledger) (host : Host) (code : string) :
  reachable as_integer st ->
  Trigger host = Application ->
  ~ In (ENotify code) (trace st) ->
  Main as_integer host "getURL" [code] st = Some (VBytes "", st)
  /\ Main as_integer host "getURLInfo" [code] st = Some (VList [""; ""], st).
Proof.
  intros Hreach Ht Hnot.
  assert (Hu : storage st !! get_contextkey_for_url code = None).
  { destruct (storage st !! get_contextkey_for_url code) eqn:E; [|reflexivity].
    exfalso.
    destruct (reachable_keys _ _ Hreach (get_contextkey_for_url code))
      as (code0 & Hin & [E0|E0] & _); [rewrite E; eauto | |].
    - apply append_inj_r in E0. now subst.
    - now apply url_key_not_sender_key in E0. }
  assert (Hs : storage st !! get_contextkey_for_sender code = None).
  { destruct (storage st !! get_contextkey_for_sender code) eqn:E; [|reflexivity].
    exfalso.
    destruct (reachable_keys _ _ Hreach (get_contextkey_for_sender code))
      as (code0 & Hin & [E0|E0] & _); [rewrite E; eauto | |].
    - symmetry in E0. now apply url_key_not_sender_key in E0.
    - apply append_inj_r in E0. now subst. }
  rewrite !Main_application by exact Ht. simpl.
  rewrite get_url_run, get_url_info_run, Hu, Hs. split; reflexivity.
Qed.

Lemma reachable_unknown_code_reads_empty_witness :
  Main le_signed sample_host "getURL" ["never added"] sample_ledger
  = Some (VBytes "", sample_ledger)
  /\ Main le_signed sample_host "getURLInfo" ["never added"] sample_ledger
     = Some (VList [""; ""], sample_ledger).
Proof.
  apply (reachable_unknown_code_reads_empty le_signed sample_ledger sample_host
           "never added").
  - exact sample_ledger_reachable.
  - reflexivity.
  - vm_compute. intros [H|[H|[H|[H|[]]]]]; discriminate H.
Defined.

(** ** The characters of a result, for every integer *)

(** X15: for every integer [i], negative ones included, and every
    [max_length], the result of [b58encode] is either the single byte
    '\x00' or made of characters of the alphabet only. *)
Theorem b58encode_alphabet_or_NUL (i n : Z) :
  b58encode i n = NUL
  \/ forall c, In c (list_ascii_of_string (b58encode i n)) ->
               In c (list_ascii_of_string alphabet).
Proof.
  rewrite b58encode_digits.
  destruct (b58digits (Z.to_nat n) i) as [|d ds] eqn:E; [now left|right].
  intros c Hc. unfold code_or_NUL, code_of_digits in Hc.
  rewrite list_ascii_of_string_of_list_ascii in Hc.
  apply in_rev, in_map_iff in Hc as (e & <- & He).
  apply digit_char_alphabet. apply (b58digits_range (Z.to_nat n) i).
  now rewrite E.
Qed.
